(** * joplin-to-hexo: a shallow embedding of [joplin_to_hexo.py]

    The export script reads notes from the Joplin data API and writes one
    Hexo post per note.  This development embeds the script's functions as
    Rocq functions and states the properties of the export over them.

    Conventions of the embedding.
    - A Python [str] is a [list ascii] (the UTF-8 bytes of the text; every
      pattern the script searches for is ASCII, so searching bytes and
      searching code points agree).
    - [Optional[...]] fields are [option]; Python truthiness of an optional
      string is [truthy].
    - A Python [dict] is a [gmap]; a directory is a [gmap] from file name to
      file content.
    - The Joplin client is a record of response functions; a response [None]
      stands for a raised exception.
    - Everything the script prints or asks of the API is recorded as a list
      of [event]s returned next to the result.
    - A [while] loop that may run forever is a fuelled function; [None]
      stands for "does not return". *)

From Stdlib Require Import Ascii String.
From stdpp Require Import base option list gmap strings relations.

Abbreviation text := (list ascii).

Definition str (s : string) : text := list_ascii_of_string s.

Definition LF : ascii := "010".
Definition DQUOTE : ascii := "034".

(** ** Python built-ins on strings *)

Section PyStr.
Context {A : Type} `{EqDecision A}.

(** [s.startswith(p)] *)
Fixpoint startswith (s p : list A) : bool :=
  match p, s with
  | [], _ => true
  | _ :: _, [] => false
  | c :: p', d :: s' => bool_decide (c = d) && startswith s' p'
  end.

(** [s.endswith(p)] *)
Definition endswith (s p : list A) : bool := startswith (reverse s) (reverse p).


(** The scan of [s.replace(old, new)] for a non-empty [old]: [skip] counts
    the characters of a match that are still to be passed over. *)
Fixpoint replace_from (old new : list A) (skip : nat) (s : list A) : list A :=
  match s with
  | [] => []
  | c :: s' =>
      match skip with
      | S k => replace_from old new k s'
      | O =>
          if startswith s old
          then new ++ replace_from old new (length old - 1) s'
          else c :: replace_from old new 0 s'
      end
  end.

(** [s.replace(old, new)]; with an empty [old] Python puts [new] before
    every character and at the end. *)
Definition str_replace (old new s : list A) : list A :=
  match old with
  | [] => new ++ flat_map (λ c, c :: new) s
  | _ :: _ => replace_from old new 0 s
  end.

(** [sep.join(l)] *)
Fixpoint join (sep : list A) (l : list (list A)) : list A :=
  match l with
  | [] => []
  | [x] => x
  | x :: l' => x ++ sep ++ join sep l'
  end.

(** [s.rfind(c)] for a single character, [None] for [-1]. *)
Fixpoint rfind (s : list A) (c : A) : option nat :=
  match s with
  | [] => None
  | d :: s' =>
      match rfind s' c with
      | Some i => Some (S i)
      | None => if bool_decide (d = c) then Some 0 else None
      end
  end.

(** [x] occurs in [s] as a substring. *)
Definition Occurs (p s : list A) : Prop := ∃ x y, s = x ++ p ++ y.

End PyStr.

(** Truthiness of an [Optional[str]]: [None] and the empty string are falsy. *)
Definition truthy (o : option text) : bool :=
  match o with
  | Some (_ :: _) => true
  | _ => false
  end.

(** [str.isspace] on the ASCII range. *)
Definition is_space (c : ascii) : bool :=
  let n := nat_of_ascii c in
  ((9 <=? n) && (n <=? 13)) || ((28 <=? n) && (n <=? 32)).

Fixpoint lstrip (s : text) : text :=
  match s with
  | [] => []
  | c :: s' => if is_space c then lstrip s' else s
  end.

(** [s.strip()] *)
Definition strip (s : text) : text := reverse (lstrip (reverse (lstrip s))).

(** [s.upper()] on the ASCII range. *)
Definition upper_char (c : ascii) : ascii :=
  let n := nat_of_ascii c in
  if (97 <=? n) && (n <=? 122) then ascii_of_nat (n - 32) else c.

Definition upper (s : text) : text := upper_char <$> s.

(** ** [os.path.splitext] (the POSIX flavour)

    The extension starts at the last dot, provided that dot comes after the
    last slash and is preceded, within the file name, by a character that is
    not a dot. *)
Definition splitext (p : text) : text * text :=
  let sepIndex := rfind p "/"%char in
  let dotIndex := rfind p "."%char in
  match dotIndex with
  | None => (p, [])
  | Some d =>
      let filenameIndex := match sepIndex with Some i => S i | None => 0 end in
      if bool_decide (filenameIndex ≤ d)
         && existsb (λ c, negb (bool_decide (c = "."%char)))
                    (take (d - filenameIndex) (drop filenameIndex p))
      then (take d p, drop d p)
      else (p, [])
  end.

(** ** [datetime] and [strftime('%Y-%m-%d %H:%M:%S')] *)

Record datetime := {
  dt_year : nat; dt_month : nat; dt_day : nat;
  dt_hour : nat; dt_minute : nat; dt_second : nat
}.

Definition digit (n : nat) : ascii := ascii_of_nat (48 + n mod 10).

Definition pad2 (n : nat) : text := [digit (n / 10); digit n].

Definition pad4 (n : nat) : text :=
  [digit (n / 1000); digit (n / 100); digit (n / 10); digit n].

Definition strftime (t : datetime) : text :=
  pad4 (dt_year t) ++ str "-" ++ pad2 (dt_month t) ++ str "-" ++ pad2 (dt_day t)
  ++ str " " ++ pad2 (dt_hour t) ++ str ":" ++ pad2 (dt_minute t)
  ++ str ":" ++ pad2 (dt_second t).

(** ** [json.dumps(d, indent=2, ensure_ascii=False)]

    The front-matter dictionary maps keys to strings or lists of strings. *)

Inductive jvalue :=
  | JStr (s : text)
  | JList (l : list text).

Definition hex_digit (n : nat) : ascii :=
  nth n (str "0123456789abcdef") "0"%char.

(** The escape table of the encoder: quote, backslash, the short escapes,
    and [\u00XX] for the other control characters. *)
Definition json_escape_char (c : ascii) : text :=
  let n := nat_of_ascii c in
  if n =? 34 then ["\"%char; DQUOTE]
  else if n =? 92 then str "\\"
  else if n =? 10 then str "\n"
  else if n =? 13 then str "\r"
  else if n =? 9 then str "\t"
  else if n =? 8 then str "\b"
  else if n =? 12 then str "\f"
  else if n <? 32 then str "\u00" ++ [hex_digit (n / 16); hex_digit (n mod 16)]
  else [c].

Definition json_string (s : text) : text :=
  DQUOTE :: flat_map json_escape_char s ++ [DQUOTE].

Definition json_value (v : jvalue) : text :=
  match v with
  | JStr s => json_string s
  | JList [] => str "[]"
  | JList l =>
      str "[" ++ LF :: str "    "
      ++ join (str "," ++ LF :: str "    ") (json_string <$> l)
      ++ LF :: str "  ]"
  end.

Definition json_member (kv : text * jvalue) : text :=
  json_string kv.1 ++ str ": " ++ json_value kv.2.

(** The members of the top-level object, each on its own indented line. *)
Definition json_members (d : list (text * jvalue)) : text :=
  str "  " ++ join (str "," ++ LF :: str "  ") (json_member <$> d).

Definition json_dumps (d : list (text * jvalue)) : text :=
  match d with
  | [] => str "{}"
  | _ :: _ => str "{" ++ LF :: json_members d ++ LF :: str "}"
  end.

(** ** Joplin data types (the fields the script reads) *)

Record NotebookData := {
  nb_id : text;
  nb_title : text;
  nb_parent_id : option text
}.

Record NoteData := {
  n_id : text;
  n_title : option text;
  n_body : option text;
  n_parent_id : option text;
  n_user_created_time : option datetime;
  n_created_time : option datetime;
  n_updated_time : option datetime
}.

Record TagData := {
  tag_id : text;
  tag_title : text
}.

Record ResourceData := {
  res_filename : option text;
  res_title : option text
}.

(** The Joplin client: each field is the response to one request, [None]
    when the request raises. *)
Record ClientApi := {
  api_ping : bool;
  api_get_all_tags : option (list TagData);
  api_get_all_notes : option text → option (list NoteData);
  api_get_all_notebooks : option (list NotebookData);
  api_get_resource : text → option ResourceData;
  api_get_resource_file : text → option text
}.

(** What a run asks of the API and what it prints. *)
Inductive event :=
  | CallPing
  | CallGetAllTags
  | CallGetAllNotes (tag : option text)
  | CallGetAllNotebooks
  | CallGetResource (resource_id : text)
  | CallGetResourceFile (resource_id : text)
  | LogSkip (note_id : text)
  | LogResourceError (resource_id : text)
  | LogNoCreationTime (note_id : text)
  | LogTagNotFound (name : text)
  | LogConnectError
  | LogFetchError
  | LogNothingToDo
  | LogCleanFailed
  | LogFinished.

(** The two output directories while notes are processed. *)
Record FS := {
  posts : gmap text text;
  resources : gmap text text
}.

(** The output directories on disk: [None] when the directory is missing. *)
Record Disk := {
  d_posts : option (gmap text text);
  d_resources : option (gmap text text)
}.

(** What the machine contributes to a run: whether [shutil.rmtree] succeeds
    on each directory, and the wall clock read while the i-th note is
    processed. *)
Record Host := {
  can_rmtree_posts : bool;
  can_rmtree_resources : bool;
  clock : nat → datetime
}.

(** ** [clean_output_directories] *)

(** One round of the [for] loop: [None] is the [OSError] branch; a failed
    [rmtree] is taken to leave the directory as it was. *)
Definition rmtree_if_exists (can : bool) (d : option (gmap text text))
  : option (option (gmap text text)) :=
  match d with
  | None => Some None
  | Some _ => if can then Some None else None
  end.

(** [os.makedirs(path, exist_ok=True)] *)
Definition makedirs (d : option (gmap text text)) : option (gmap text text) :=
  Some (default ∅ d).

Definition clean_output_directories (h : Host) (d : Disk) : Disk * bool :=
  match rmtree_if_exists (can_rmtree_posts h) (d_posts d) with
  | None => (d, false)
  | Some p =>
      match rmtree_if_exists (can_rmtree_resources h) (d_resources d) with
      | None => ({| d_posts := p; d_resources := d_resources d |}, false)
      | Some r => ({| d_posts := makedirs p; d_resources := makedirs r |}, true)
      end
  end.

(** ** [get_category_hierarchy] *)

(** The [while] loop, with fuel. *)
Fixpoint hierarchy_loop (fuel : nat) (notebooks_map : gmap text NotebookData)
    (current_id : option text) (categories : list text) : option (list text) :=
  match fuel with
  | O => None
  | S fuel' =>
      if truthy current_id then
        match notebooks_map !! default [] current_id with
        | Some notebook =>
            hierarchy_loop fuel' notebooks_map (nb_parent_id notebook)
                           (nb_title notebook :: categories)
        | None => Some categories
        end
      else Some categories
  end.

(** One more round than there are notebooks is enough whenever the loop
    ends at all ([hierarchy_fuel_enough] below), so [None] here means that
    the loop runs forever. *)
Definition get_category_hierarchy (start_notebook_id : option text)
    (notebooks_map : gmap text NotebookData) : option (list text) :=
  hierarchy_loop (S (size notebooks_map)) notebooks_map start_notebook_id [].

(** One round of the loop: from [x] the loop goes on with [y]. *)
Definition parent_step (m : gmap text NotebookData) (x y : option text) : Prop :=
  ∃ nb, truthy x = true ∧ m !! default [] x = Some nb ∧ y = nb_parent_id nb.

(** A parent cycle can be reached from [start]. *)
Definition cycle_reachable (m : gmap text NotebookData) (start : option text) : Prop :=
  ∃ c, rtc (parent_step m) start c ∧ tc (parent_step m) c c.

(** [ups] lists the notebooks met from [cur] upwards, immediate parent
    first, and the walk ends after the last of them: the next id is falsy
    or missing from the map. *)
Fixpoint chain_up (m : gmap text NotebookData) (cur : option text)
    (ups : list NotebookData) : Prop :=
  match ups with
  | [] => truthy cur = false ∨ m !! default [] cur = None
  | nb :: ups' =>
      truthy cur = true ∧ m !! default [] cur = Some nb
      ∧ chain_up m (nb_parent_id nb) ups'
  end.

(** ** [remove_outer_braces] *)

Definition remove_outer_braces (t : text) : text :=
  let stripped_text := strip t in
  if startswith stripped_text (str "{") && endswith stripped_text (str "}")
  then removelast (tail stripped_text)
  else stripped_text.

(** ** [re.findall(r'!\[.*?\]\(:\/([a-f0-9]{32})\)', body)] *)

(** [[a-f0-9]] *)
Definition is_hex (c : ascii) : bool :=
  let n := nat_of_ascii c in
  ((97 <=? n) && (n <=? 102)) || ((48 <=? n) && (n <=? 57)).

(** [\]\(:\/([a-f0-9]{32})\)] at the head of [s]: the captured id. *)
Definition match_link_tail (s : text) : option text :=
  if startswith s (str "](:/") then
    let rest := drop 4 s in
    let id := take 32 rest in
    if (length id =? 32) && forallb is_hex id && startswith (drop 32 rest) (str ")")
    then Some id
    else None
  else None.

(** [.*?] followed by the tail: the lazy star first tries to stop, and
    otherwise takes one more character, which must not be a newline.  The
    result is the captured id and the number of characters matched. *)
Fixpoint match_lazy (s : text) : option (text * nat) :=
  match match_link_tail s with
  | Some id => Some (id, 37)
  | None =>
      match s with
      | [] => None
      | c :: s' =>
          if bool_decide (c = LF) then None
          else '(id, n) ← match_lazy s'; Some (id, S n)
      end
  end.

(** A match of the whole pattern at the head of [s]. *)
Definition match_image (s : text) : option (text * nat) :=
  if startswith s (str "![") then
    '(id, n) ← match_lazy (drop 2 s); Some (id, 2 + n)
  else None.

(** The left-to-right scan for non-overlapping matches. *)
Fixpoint findall_from (skip : nat) (s : text) : list text :=
  match s with
  | [] => []
  | _ :: s' =>
      match skip with
      | S k => findall_from k s'
      | O =>
          match match_image s with
          | Some (id, n) => id :: findall_from (n - 1) s'
          | None => findall_from 0 s'
          end
      end
  end.

Definition findall (body : text) : list text := findall_from 0 body.

(** ** [process_note] *)

(** [f"(:/{resource_id})"] *)
Definition old_link (resource_id : text) : text :=
  str "(:/" ++ resource_id ++ str ")".

(** [f"(/resources/{new_resource_filename})"] *)
Definition new_link (new_resource_filename : text) : text :=
  str "(" ++ str "/resources/" ++ new_resource_filename ++ str ")".

(** [resource_meta.filename or resource_meta.title or ""] *)
Definition original_filename (meta : ResourceData) : text :=
  if truthy (res_filename meta) then default [] (res_filename meta)
  else if truthy (res_title meta) then default [] (res_title meta)
  else [].

Definition resource_extension (meta : ResourceData) : text :=
  let extension := (splitext (original_filename meta)).2 in
  match extension with
  | [] => str ".png"
  | _ :: _ => extension
  end.

(** [f"{resource_id}{extension}"] *)
Definition new_resource_filename (resource_id : text) (meta : ResourceData) : text :=
  resource_id ++ resource_extension meta.

(** The body of the [for] loop over the resource links, with its
    [try]/[except]. *)
Definition process_resource (api : ClientApi) (res : gmap text text)
    (new_body : text) (resource_id : text) : gmap text text * text * list event :=
  match api_get_resource api resource_id with
  | None => (res, new_body, [CallGetResource resource_id; LogResourceError resource_id])
  | Some meta =>
      let name := new_resource_filename resource_id meta in
      let rewritten := str_replace (old_link resource_id) (new_link name) new_body in
      match res !! name with
      | Some _ => (res, rewritten, [CallGetResource resource_id])
      | None =>
          match api_get_resource_file api resource_id with
          | None =>
              (res, new_body,
               [CallGetResource resource_id; CallGetResourceFile resource_id;
                LogResourceError resource_id])
          | Some content =>
              (<[name := content]> res, rewritten,
               [CallGetResource resource_id; CallGetResourceFile resource_id])
          end
      end
  end.

Fixpoint process_resources (api : ClientApi) (resource_links : list text)
    (res : gmap text text) (new_body : text) : gmap text text * text * list event :=
  match resource_links with
  | [] => (res, new_body, [])
  | resource_id :: rest =>
      let '(res1, body1, ev1) := process_resource api res new_body resource_id in
      let '(res2, body2, ev2) := process_resources api rest res1 body1 in
      (res2, body2, ev1 ++ ev2)
  end.

(** The creation date: the note's own, else the fallback, else the clock
    (with a warning). *)
Definition date_str (now : datetime) (note : NoteData) : text * list event :=
  match n_user_created_time note with
  | Some t => (strftime t, [])
  | None =>
      match n_created_time note with
      | Some t => (strftime t, [])
      | None => (strftime now, [LogNoCreationTime (n_id note)])
      end
  end.

Definition updated_str (date : text) (note : NoteData) : text :=
  match n_updated_time note with
  | Some t => strftime t
  | None => date
  end.

(** The categories of a note; the outer [None] is a traversal that does
    not return. *)
Definition note_categories (note : NoteData) (notebooks_map : gmap text NotebookData)
  : option (list text) :=
  if truthy (n_parent_id note)
  then get_category_hierarchy (n_parent_id note) notebooks_map
  else Some [].

Definition front_matter_dict (title date updated : text) (categories : list text)
  : list (text * jvalue) :=
  [(str "title", JStr title); (str "date", JStr date); (str "updated", JStr updated)]
  ++ match categories with
     | [] => []
     | _ :: _ => [(str "categories", JList categories)]
     end.

(** [f";;;{json_str}\n;;;\n\n"] *)
Definition front_matter_str (json_str : text) : text :=
  str ";;;" ++ json_str ++ LF :: str ";;;" ++ [LF; LF].

Definition markdown_filename (note : NoteData) : text := n_id note ++ str ".md".

Definition process_note (api : ClientApi) (now : datetime) (note : NoteData)
    (fs : FS) (notebooks_map : gmap text NotebookData) : option (FS * list event) :=
  if negb (truthy (n_title note)) || negb (truthy (n_body note)) then
    Some (fs, [LogSkip (n_id note)])
  else
    let body := default [] (n_body note) in
    let resource_links := findall body in
    let '(res, new_body, ev_res) :=
      process_resources api resource_links (resources fs) body in
    let '(date, ev_date) := date_str now note in
    let updated := updated_str date note in
    categories ← note_categories note notebooks_map;
    let front_matter :=
      front_matter_dict (default [] (n_title note)) date updated categories in
    let json_str := remove_outer_braces (json_dumps front_matter) in
    let final_content := front_matter_str json_str ++ new_body in
    Some ({| posts := <[markdown_filename note := final_content]> (posts fs);
             resources := res |},
          ev_res ++ ev_date).

(** ** [main] *)

Inductive outcome :=
  | NoToken
  | ConnectFailed
  | TagNotFound
  | FetchFailed
  | NothingToDo
  | Crashed
  | CleanFailed
  | Finished.

(** [{nb.id: nb for nb in all_notebooks if nb.id}] *)
Definition build_notebooks_map (all_notebooks : list NotebookData)
  : gmap text NotebookData :=
  foldl (λ m nb, match nb_id nb with
                  | [] => m
                  | _ :: _ => <[nb_id nb := nb]> m
                  end) ∅ all_notebooks.

(** The [for note in notes_to_process] loop; [i] is the index of the next
    note. *)
Fixpoint process_notes (api : ClientApi) (h : Host) (i : nat) (notes : list NoteData)
    (fs : FS) (notebooks_map : gmap text NotebookData) : option (FS * list event) :=
  match notes with
  | [] => Some (fs, [])
  | note :: rest =>
      '(fs1, ev1) ← process_note api (clock h i) note fs notebooks_map;
      '(fs2, ev2) ← process_notes api h (S i) rest fs1 notebooks_map;
      Some (fs2, ev1 ++ ev2)
  end.

(** The selector: the notes to process, or the reason to stop. *)
Definition fetch_notes (api : ClientApi) (target_tag_name : option text)
  : (outcome + list NoteData) * list event :=
  if truthy target_tag_name then
    let name := default [] target_tag_name in
    match api_get_all_tags api with
    | None => (inl FetchFailed, [CallGetAllTags; LogFetchError])
    | Some tags =>
        match List.find (λ tag, bool_decide (tag_title tag = name)) tags with
        | None => (inl TagNotFound, [CallGetAllTags; LogTagNotFound name])
        | Some target_tag =>
            match api_get_all_notes api (Some (tag_id target_tag)) with
            | None =>
                (inl FetchFailed,
                 [CallGetAllTags; CallGetAllNotes (Some (tag_id target_tag)); LogFetchError])
            | Some notes =>
                (inr notes, [CallGetAllTags; CallGetAllNotes (Some (tag_id target_tag))])
            end
        end
    end
  else
    match api_get_all_notes api None with
    | None => (inl FetchFailed, [CallGetAllNotes None; LogFetchError])
    | Some notes => (inr notes, [CallGetAllNotes None])
    end.

(** [main], from the parsed [--tag] argument and the token on.  The result
    is the disk after the run, how the run ended and what it did; [None]
    is a run that does not return. *)
Definition main (tag token : text) (api : ClientApi) (h : Host) (d : Disk)
  : option (Disk * outcome * list event) :=
  let target_tag_name :=
    if bool_decide (upper tag = str "ALL") then None else Some tag in
  match token with
  | [] => Some (d, NoToken, [])
  | _ :: _ =>
      if negb (api_ping api) then Some (d, ConnectFailed, [CallPing; LogConnectError])
      else
        match fetch_notes api target_tag_name with
        | (inl stop, ev) => Some (d, stop, CallPing :: ev)
        | (inr [], ev) => Some (d, NothingToDo, CallPing :: ev ++ [LogNothingToDo])
        | (inr notes_to_process, ev) =>
            match api_get_all_notebooks api with
            | None => Some (d, Crashed, CallPing :: ev ++ [CallGetAllNotebooks])
            | Some all_notebooks =>
                let notebooks_map := build_notebooks_map all_notebooks in
                let ev0 := CallPing :: ev ++ [CallGetAllNotebooks] in
                match clean_output_directories h d with
                | (d1, false) => Some (d1, CleanFailed, ev0 ++ [LogCleanFailed])
                | (d1, true) =>
                    let fs := {| posts := default ∅ (d_posts d1);
                                 resources := default ∅ (d_resources d1) |} in
                    '(fs', ev_notes) ←
                      process_notes api h 0 notes_to_process fs notebooks_map;
                    Some ({| d_posts := Some (posts fs');
                             d_resources := Some (resources fs') |},
                          Finished, ev0 ++ ev_notes ++ [LogFinished])
                end
            end
        end
  end.


(** ** Auxiliary predicates of the statements *)


#[global] Instance event_eq_dec : EqDecision event.
Proof. solve_decision. Defined.

(** The body that the loop over the resource links makes of a text [t]. *)
Definition rewritten_body (api : ClientApi) (resource_links : list text)
    (res : gmap text text) (t : text) : text :=
  (process_resources api resource_links res t).1.2.


(** The document that [process_note] writes for a note that is not
    skipped, given the categories found for it. *)
Definition note_document (api : ClientApi) (now : datetime) (note : NoteData)
    (res : gmap text text) (categories : list text) : text :=
  let body := default [] (n_body note) in
  let date := (date_str now note).1 in
  front_matter_str
    (remove_outer_braces
       (json_dumps
          (front_matter_dict (default [] (n_title note)) date
             (updated_str date note) categories)))
  ++ rewritten_body api (findall body) res body.

(** ** Sample data *)

Definition sample_id : text := str "0123456789abcdef0123456789abcdef".

Definition sample_time : datetime :=
  {| dt_year := 2024; dt_month := 3; dt_day := 7;
     dt_hour := 9; dt_minute := 5; dt_second := 0 |}.

Definition later_time : datetime :=
  {| dt_year := 2025; dt_month := 1; dt_day := 1;
     dt_hour := 0; dt_minute := 0; dt_second := 1 |}.

Definition root_notebook : NotebookData :=
  {| nb_id := str "a"; nb_title := str "Root"; nb_parent_id := Some [] |}.

Definition child_notebook : NotebookData :=
  {| nb_id := str "b"; nb_title := str "Child"; nb_parent_id := Some (str "a") |}.

Definition sample_notebooks : gmap text NotebookData :=
  build_notebooks_map [root_notebook; child_notebook].


Definition sample_body : text := str "![x](:/0123456789abcdef0123456789abcdef)".

Definition sample_note : NoteData :=
  {| n_id := str "n1"; n_title := Some (str "Hello"); n_body := Some sample_body;
     n_parent_id := Some (str "b");
     n_user_created_time := Some sample_time; n_created_time := None;
     n_updated_time := None |}.

Definition sample_api : ClientApi :=
  {| api_ping := true;
     api_get_all_tags := Some [{| tag_id := str "t1"; tag_title := str "blog" |}];
     api_get_all_notes := λ _, Some [sample_note];
     api_get_all_notebooks := Some [root_notebook; child_notebook];
     api_get_resource :=
       λ _, Some {| res_filename := Some (str "pic.jpg"); res_title := None |};
     api_get_resource_file := λ _, Some (str "JPEG") |}.

Definition sample_host : Host :=
  {| can_rmtree_posts := true; can_rmtree_resources := true;
     clock := λ _, later_time |}.

Definition empty_fs : FS := {| posts := ∅; resources := ∅ |}.



(** The wire format as the specification words it:
    [;;;\n<block>\n;;;\n\n<body>]. *)
Definition claimed_wire_format (block body : text) : text :=
  str ";;;" ++ [LF] ++ block ++ [LF] ++ str ";;;" ++ [LF; LF] ++ body.


(** The front-matter and the rewritten body of [sample_note]. *)
Definition sample_front_matter : list (text * jvalue) :=
  [(str "title", JStr (str "Hello"));
   (str "date", JStr (str "2024-03-07 09:05:00"));
   (str "updated", JStr (str "2024-03-07 09:05:00"));
   (str "categories", JList [str "Root"; str "Child"])].

Definition sample_new_body : text :=
  str "![x](/resources/0123456789abcdef0123456789abcdef.jpg)".


(** The extension, or [.png] when there is none. *)
Definition or_png (extension : text) : text :=
  match extension with
  | [] => str ".png"
  | _ :: _ => extension
  end.

(** The local file name as the specification words it: the extension comes
    from the metadata's filename field alone. *)
Definition claimed_resource_filename (resource_id : text) (meta : ResourceData) : text :=
  resource_id ++ or_png (splitext (default [] (res_filename meta))).2.

(** A resource whose filename field is empty and whose title is the name
    of the file. *)
Definition titled_meta : ResourceData :=
  {| res_filename := Some []; res_title := Some (str "photo.jpg") |}.

Definition titled_api : ClientApi :=
  {| api_ping := true;
     api_get_all_tags := Some [{| tag_id := str "t1"; tag_title := str "blog" |}];
     api_get_all_notes := λ _, Some [sample_note];
     api_get_all_notebooks := Some [root_notebook; child_notebook];
     api_get_resource := λ _, Some titled_meta;
     api_get_resource_file := λ _, Some (str "JPEG") |}.

(** An API that has the metadata of every resource and the content of
    none. *)
Definition no_content_api : ClientApi :=
  {| api_ping := true;
     api_get_all_tags := Some [{| tag_id := str "t1"; tag_title := str "blog" |}];
     api_get_all_notes := λ _, Some [sample_note];
     api_get_all_notebooks := Some [root_notebook; child_notebook];
     api_get_resource :=
       λ _, Some {| res_filename := Some (str "pic.jpg"); res_title := None |};
     api_get_resource_file := λ _, None |}.

(** Directories in which the file of [sample_id] is already present. *)
Definition cached_fs : FS :=
  {| posts := ∅;
     resources := {[ str "0123456789abcdef0123456789abcdef.jpg" := str "JPEG" ]} |}.

Definition has_creation_time (note : NoteData) : Prop :=
  is_Some (n_user_created_time note) ∨ is_Some (n_created_time note).


(** The metadata that [sample_api] has for every resource. *)
Definition sample_meta : ResourceData :=
  {| res_filename := Some (str "pic.jpg"); res_title := None |}.


(** A disk without the output directories, and one that holds an earlier
    post. *)
Definition no_disk : Disk := {| d_posts := None; d_resources := None |}.

Definition used_disk : Disk :=
  {| d_posts := Some {[ str "old.md" := str "stale" ]};
     d_resources := Some ∅ |}.

(** A note without any timestamp, and an API that lists it. *)
Definition undated_note : NoteData :=
  {| n_id := str "n4"; n_title := Some (str "Undated"); n_body := Some (str "text");
     n_parent_id := None;
     n_user_created_time := None; n_created_time := None;
     n_updated_time := None |}.

Definition undated_api : ClientApi :=
  {| api_ping := true;
     api_get_all_tags := Some [{| tag_id := str "t1"; tag_title := str "blog" |}];
     api_get_all_notes := λ _, Some [undated_note];
     api_get_all_notebooks := Some [];
     api_get_resource := λ _, None;
     api_get_resource_file := λ _, None |}.

(** A host whose clock shows an earlier time than that of [sample_host]. *)
Definition early_host : Host :=
  {| can_rmtree_posts := true; can_rmtree_resources := true;
     clock := λ _, sample_time |}.

(** * Facts about the string built-ins *)

Section PyStrFacts.
Context {A : Type} `{EqDecision A}.
Implicit Types (s p old new x y r t : list A).

Lemma startswith_nil s : startswith s [] = true.
Proof. by destruct s. Qed.

Lemma startswith_spec s p : startswith s p = true ↔ ∃ r, s = p ++ r.
Proof.
  revert s. induction p as [|c p IH]; intros s.
  - rewrite startswith_nil. split; [eauto | done].
  - destruct s as [|d s]; simpl.
    + split; [done | by intros [r ?]].
    + rewrite andb_true_iff, bool_decide_eq_true, IH. split.
      * intros [-> [r ->]]. by exists r.
      * intros [r Hr]. simplify_eq/=. eauto.
Qed.


Lemma startswith_Occurs s p : startswith s p = true → Occurs p s.
Proof. intros [r ->]%startswith_spec. by exists [], r. Qed.





Lemma Occurs_cons p c s : Occurs p s → Occurs p (c :: s).
Proof. intros (x & y & ->). by exists (c :: x), y. Qed.

Lemma Occurs_app_l p s t : Occurs p t → Occurs p (s ++ t).
Proof. intros (x & y & ->). exists (s ++ x), y. by rewrite <-(assoc_L (++)). Qed.

Lemma Occurs_app_r p s t : Occurs p s → Occurs p (s ++ t).
Proof.
  intros (x & y & ->). exists x, (y ++ t). by rewrite <-!(assoc_L (++)).
Qed.



Lemma str_replace_nil old new : old ≠ [] → str_replace old new [] = [].
Proof. by destruct old. Qed.


Lemma str_replace_miss old new c r :
  old ≠ [] → startswith (c :: r) old = false →
  str_replace old new (c :: r) = c :: str_replace old new r.
Proof.
  destruct old as [|d old]; [done|]. intros _ Hs.
  unfold str_replace. cbn [replace_from]. by rewrite Hs.
Qed.



Lemma str_replace_absent old new s :
  old ≠ [] → ¬ Occurs old s → str_replace old new s = s.
Proof.
  intros Hold. induction s as [|c s IH]; intros Hocc.
  - by apply str_replace_nil.
  - rewrite str_replace_miss; [|done|].
    + f_equal. apply IH. intros ?. by apply Hocc, Occurs_cons.
    + apply not_true_is_false. intros ?. by apply Hocc, startswith_Occurs.
Qed.

End PyStrFacts.

(** ** Replacing a delimited pattern

    The links the script replaces open with a character [a] that occurs
    nowhere else in them and close with a character [z] that occurs nowhere
    else in them.  For such a pattern the replacement acts separately on the
    text before and after any block that opens with [a], closes with [z] and
    does not contain the pattern. *)

Section Delimited.
Context {A : Type} `{EqDecision A}.
Variables (a z : A).
Implicit Types (s p old new x y r t m u : list A).









End Delimited.

(** * The resource links *)

(** Closed decidable facts, by evaluation. *)
Ltac decide_closed := apply (bool_decide_unpack _); vm_compute; exact I.

Lemma is_hex_not_special c :
  is_hex c = true →
  c ≠ "("%char ∧ c ≠ ")"%char ∧ c ≠ "/"%char ∧ c ≠ ":"%char.
Proof. intros H. split_and!; intros ->; vm_compute in H; discriminate. Qed.














(** ** The extension has no slash *)







(** ** The pattern captures resource ids only *)






(** ** The loop over the resource links *)

(** One round of the loop either fails, logs the failure and leaves every
    text as it is, or succeeds, has the file in the directory and replaces
    the link in every text. *)
Lemma process_resource_shape api res id :
  (∃ res1 ev1, LogResourceError id ∈ ev1
     ∧ ∀ t, process_resource api res t id = (res1, t, ev1))
  ∨ (∃ res1 ev1 meta,
       api_get_resource api id = Some meta
       ∧ is_Some (res1 !! new_resource_filename id meta)
       ∧ res ⊆ res1
       ∧ ∀ t, process_resource api res t id
              = (res1,
                 str_replace (old_link id)
                   (new_link (new_resource_filename id meta)) t,
                 ev1)).
Proof.
  unfold process_resource. destruct (api_get_resource api id) as [meta|].
  - destruct (res !! new_resource_filename id meta) as [c|] eqn:Hres.
    + right. eexists _, _, meta. split_and!; [done|by rewrite Hres|done|done].
    + destruct (api_get_resource_file api id) as [content|].
      * right. eexists _, _, meta. split_and!; [done| |by apply insert_subseteq|done].
        rewrite lookup_insert_eq. eauto.
      * left. eexists _, _. split; [|done]. set_solver.
  - left. eexists _, _. split; [|done]. set_solver.
Qed.

Lemma process_resources_cons api id ids res t :
  process_resources api (id :: ids) res t
  = let r1 := process_resource api res t id in
    let r2 := process_resources api ids r1.1.1 r1.1.2 in
    (r2.1.1, r2.1.2, r1.2 ++ r2.2).
Proof.
  simpl. destruct (process_resource api res t id) as [[res1 b1] ev1].
  cbn [fst snd]. by destruct (process_resources api ids res1 b1) as [[res2 b2] ev2].
Qed.

(** What the loop does to the directory and what it logs does not depend
    on the text. *)
Lemma process_resources_text_irrelevant api ids res t t' :
  (process_resources api ids res t).1.1 = (process_resources api ids res t').1.1
  ∧ (process_resources api ids res t).2 = (process_resources api ids res t').2.
Proof.
  revert res t t'. induction ids as [|id ids IH]; intros res t t'; [done|].
  rewrite !process_resources_cons. cbn zeta.
  destruct (process_resource_shape api res id)
    as [(res1 & ev1 & _ & H)|(res1 & ev1 & meta & _ & _ & _ & H)];
    rewrite !H; cbn [fst snd];
    by destruct (IH res1 t t') as [-> ->]
    || (edestruct IH as [E1 E2]; rewrite E1, E2; done).
Qed.









(** * The category hierarchy *)

Section Hierarchy.
Variable m : gmap text NotebookData.
Implicit Types (x y c : option text) (acc : list text).

Lemma hierarchy_loop_go fuel x acc nb :
  truthy x = true → m !! default [] x = Some nb →
  hierarchy_loop (S fuel) m x acc
  = hierarchy_loop fuel m (nb_parent_id nb) (nb_title nb :: acc).
Proof. intros Hx Hnb. simpl. by rewrite Hx, Hnb. Qed.

Lemma hierarchy_loop_stop fuel x acc :
  truthy x = false ∨ m !! default [] x = None →
  hierarchy_loop (S fuel) m x acc = Some acc.
Proof. intros [Hx|Hx]; simpl; rewrite Hx; [done|]. by destruct (truthy x). Qed.

Lemma parent_step_cases x :
  (∃ nb, truthy x = true ∧ m !! default [] x = Some nb)
  ∨ (truthy x = false ∨ m !! default [] x = None).
Proof.
  destruct (truthy x) eqn:Hx; [|by right; left].
  destruct (m !! default [] x) as [nb|] eqn:Hnb; [left; eauto | by right; right].
Qed.

Lemma parent_step_det x y1 y2 : parent_step m x y1 → parent_step m x y2 → y1 = y2.
Proof. intros (nb1 & _ & H1 & ->) (nb2 & _ & H2 & ->). congruence. Qed.

Lemma parent_step_stop x y :
  truthy x = false ∨ m !! default [] x = None → ¬ parent_step m x y.
Proof. intros [Hx|Hx] (nb & ? & ? & _); congruence. Qed.

Lemma tc_first_step x z :
  tc (parent_step m) x z → ∃ y, parent_step m x y ∧ rtc (parent_step m) y z.
Proof.
  intros H. destruct H as [x y Hxy|x y z Hxy Hyz].
  - by exists y.
  - exists y. split; [done | by apply tc_rtc].
Qed.

Lemma hierarchy_loop_mono fuel fuel' x acc r :
  hierarchy_loop fuel m x acc = Some r → fuel ≤ fuel' →
  hierarchy_loop fuel' m x acc = Some r.
Proof.
  revert fuel' x acc. induction fuel as [|fuel IH]; intros fuel' x acc; [done|].
  intros Hr Hle. destruct fuel' as [|fuel']; [lia|].
  destruct (parent_step_cases x) as [(nb & Hx & Hnb)|Hstop].
  - rewrite (hierarchy_loop_go _ _ _ nb) in Hr by done.
    rewrite (hierarchy_loop_go _ _ _ nb) by done. apply IH; [done|lia].
  - rewrite hierarchy_loop_stop in Hr by done. by rewrite hierarchy_loop_stop.
Qed.

(** A loop that ends has met no cycle. *)
Lemma hierarchy_loop_Some_acyclic fuel x acc r :
  hierarchy_loop fuel m x acc = Some r → ¬ cycle_reachable m x.
Proof.
  revert x acc. induction fuel as [|fuel IH]; intros x acc; [done|].
  intros Hr (c & Hxc & Hcc).
  destruct (parent_step_cases x) as [(nb & Hx & Hnb)|Hstop].
  - rewrite (hierarchy_loop_go _ _ _ nb) in Hr by done.
    apply (IH _ _ Hr). exists c. split; [|done].
    assert (parent_step m x (nb_parent_id nb)) as Hstep by (by exists nb).
    destruct Hxc as [|x y c Hxy Hyc].
    + apply tc_first_step in Hcc as (y & Hxy & Hyc).
      by rewrite (parent_step_det _ _ _ Hstep Hxy).
    + by rewrite (parent_step_det _ _ _ Hstep Hxy).
  - destruct Hxc as [|x y c Hxy Hyc].
    + apply tc_first_step in Hcc as (y & Hxy & _).
      by apply (parent_step_stop _ y) in Hstop.
    + by apply (parent_step_stop _ y) in Hstop.
Qed.

(** Without a cycle every round removes one notebook from the set of those
    that can still be met. *)
Lemma acyclic_halts_within (n : nat) (V : gset text) x acc :
  size V ≤ n →
  (∀ id, rtc (parent_step m) x (Some id) → is_Some (m !! id) → id ∈ V) →
  ¬ cycle_reachable m x →
  ∃ r, hierarchy_loop (S n) m x acc = Some r.
Proof.
  revert V x acc. induction n as [|n IH]; intros V x acc Hsize HV Hacyc.
  - destruct (parent_step_cases x) as [(nb & Hx & Hnb)|Hstop].
    + destruct x as [[|ch id]|]; try done. simpl in Hnb.
      assert (ch :: id ∈ V) as Hin by (apply HV; [done|eauto]).
      assert (size V ≠ 0) by (apply size_non_empty_iff; set_solver). lia.
    + rewrite hierarchy_loop_stop by done. eauto.
  - destruct (parent_step_cases x) as [(nb & Hx & Hnb)|Hstop].
    + rewrite (hierarchy_loop_go _ _ _ nb) by done.
      destruct x as [[|ch id]|]; try done. simpl in Hnb.
      assert (parent_step m (Some (ch :: id)) (nb_parent_id nb)) as Hstep
        by (by exists nb).
      assert (ch :: id ∈ V) as Hin by (apply HV; [done|eauto]).
      apply (IH (V ∖ {[ch :: id]})).
      * rewrite size_difference by set_solver. rewrite size_singleton. lia.
      * intros id' Hreach Hsome. apply elem_of_difference. split.
        -- apply HV; [|done]. by eapply rtc_l.
        -- intros ->%elem_of_singleton. apply Hacyc. exists (Some (ch :: id)).
           split; [done|]. by eapply tc_rtc_r; [apply tc_once|].
      * intros (c & Hc & Hcc). apply Hacyc. exists c. split; [|done].
        by eapply rtc_l.
    + rewrite hierarchy_loop_stop by done. eauto.
Qed.

Lemma acyclic_halts x acc :
  ¬ cycle_reachable m x → ∃ r, hierarchy_loop (S (size m)) m x acc = Some r.
Proof.
  apply (acyclic_halts_within _ (dom m)).
  - by rewrite size_dom.
  - intros id _ ?. by apply elem_of_dom.
Qed.

(** One more round than there are notebooks is enough for every loop that
    ends. *)
Lemma hierarchy_fuel_enough fuel x acc r :
  hierarchy_loop fuel m x acc = Some r →
  hierarchy_loop (S (size m)) m x acc = Some r.
Proof.
  intros Hr. destruct (acyclic_halts x acc) as [r' Hr'].
  { by eapply hierarchy_loop_Some_acyclic. }
  rewrite Hr'. f_equal.
  apply (hierarchy_loop_mono _ (fuel `max` S (size m))) in Hr; [|lia].
  apply (hierarchy_loop_mono _ (fuel `max` S (size m))) in Hr'; [|lia].
  congruence.
Qed.


(** Along a chain the titles are prepended one by one. *)
Lemma chain_up_loop ups x acc :
  chain_up m x ups →
  hierarchy_loop (S (length ups)) m x acc
  = Some (reverse (nb_title <$> ups) ++ acc).
Proof.
  revert x acc. induction ups as [|nb ups IH]; intros x acc.
  - intros Hstop. by rewrite hierarchy_loop_stop.
  - intros (Hx & Hnb & Hups). cbn [length].
    rewrite (hierarchy_loop_go _ _ _ nb), (IH _ _ Hups) by done.
    by rewrite fmap_cons, reverse_cons, <-(assoc_L (++)).
Qed.

End Hierarchy.

(** C6. For every notebook chain from a root notebook down to the
    immediate parent of a note, the category path is the list of the
    notebook titles, root first and immediate parent last.  A note directly
    under a root notebook gets a one-element path, and the traversal ends
    with the empty path, without an error, at an id that is falsy or
    missing from the notebook map. *)
Theorem category_path_root_first m start :
  (∀ path, chain_up m start (reverse path) →
     get_category_hierarchy start m = Some (nb_title <$> path))
  ∧ (∀ nb, truthy start = true → m !! default [] start = Some nb →
       truthy (nb_parent_id nb) = false ∨ m !! default [] (nb_parent_id nb) = None →
       get_category_hierarchy start m = Some [nb_title nb])
  ∧ (truthy start = false ∨ m !! default [] start = None →
       get_category_hierarchy start m = Some []).
Proof.
  assert (∀ path, chain_up m start (reverse path) →
            get_category_hierarchy start m = Some (nb_title <$> path)) as Hpath.
  { intros path Hchain. unfold get_category_hierarchy.
    eapply hierarchy_fuel_enough. rewrite (chain_up_loop m _ _ [] Hchain).
    by rewrite app_nil_r, <-fmap_reverse, reverse_involutive. }
  split_and!; [done|..].
  - intros nb Hstart Hnb Hroot. by apply (Hpath [nb]).
  - intros Hstop. by apply (Hpath []).
Qed.

Lemma category_path_root_first_witness :
  get_category_hierarchy (Some (str "b")) sample_notebooks
  = Some [str "Root"; str "Child"].
Proof.
  apply (proj1 (category_path_root_first sample_notebooks (Some (str "b")))
               [root_notebook; child_notebook]).
  vm_compute. repeat split. by left.
Defined.




(** * [process_note] *)

(** A note with a title and a body: the traversal for the categories may
    not return; when it does, one document is written under the note id. *)
Lemma process_note_exported api now note fs m :
  truthy (n_title note) = true → truthy (n_body note) = true →
  process_note api now note fs m
  = categories ← note_categories note m;
    Some ({| posts := <[markdown_filename note :=
                          note_document api now note (resources fs) categories]>
                        (posts fs);
             resources := (process_resources api (findall (default [] (n_body note)))
                             (resources fs) (default [] (n_body note))).1.1 |},
          (process_resources api (findall (default [] (n_body note)))
             (resources fs) (default [] (n_body note))).2
          ++ (date_str now note).2).
Proof.
  intros Ht Hb. unfold process_note, note_document, rewritten_body.
  rewrite Ht, Hb. cbn [negb orb].
  destruct (process_resources _ _ _ _) as [[res new_body] ev_res].
  by destruct (date_str now note) as [date ev_date].
Qed.

(** C8. A note whose title is empty or absent, or whose body is empty or
    absent, is skipped: the call returns, the notice is logged, and the
    directories are as before, so no file is created. *)
Theorem empty_note_skipped api now note fs m :
  truthy (n_title note) = false ∨ truthy (n_body note) = false →
  process_note api now note fs m = Some (fs, [LogSkip (n_id note)]).
Proof.
  intros H. unfold process_note.
  by destruct H as [-> | ->]; [|rewrite orb_true_r].
Qed.

Lemma empty_note_skipped_witness :
  process_note sample_api later_time
    {| n_id := str "n2"; n_title := Some []; n_body := Some (str "text");
       n_parent_id := None; n_user_created_time := None;
       n_created_time := None; n_updated_time := None |}
    empty_fs sample_notebooks
  = Some (empty_fs, [LogSkip (str "n2")]).
Proof.
  apply (empty_note_skipped sample_api later_time
           {| n_id := str "n2"; n_title := Some []; n_body := Some (str "text");
              n_parent_id := None; n_user_created_time := None;
              n_created_time := None; n_updated_time := None |}).
  left. reflexivity.
Defined.




(** ** The front-matter block *)

Lemma lstrip_nonspace c s : is_space c = false → lstrip (c :: s) = c :: s.
Proof. intros H. simpl. by rewrite H. Qed.

Lemma strip_delimited c1 c2 w :
  is_space c1 = false → is_space c2 = false →
  strip (c1 :: w ++ [c2]) = c1 :: w ++ [c2].
Proof.
  intros H1 H2. unfold strip. rewrite lstrip_nonspace by done.
  assert (reverse (c1 :: w ++ [c2]) = c2 :: reverse w ++ [c1]) as Hrev.
  { by rewrite reverse_cons, reverse_app, <-(assoc_L (++)). }
  rewrite Hrev, lstrip_nonspace, <-Hrev by done. apply reverse_involutive.
Qed.

Lemma remove_outer_braces_braced w :
  remove_outer_braces ("{"%char :: w ++ ["}"%char]) = w.
Proof.
  unfold remove_outer_braces. rewrite strip_delimited by done.
  assert (startswith ("{"%char :: w ++ ["}"%char]) (str "{") = true) as ->.
  { apply startswith_spec. by eexists. }
  assert (endswith ("{"%char :: w ++ ["}"%char]) (str "}") = true) as ->.
  { unfold endswith. apply startswith_spec. exists (reverse w ++ ["{"%char]).
    by rewrite reverse_cons, reverse_app, <-(assoc_L (++)). }
  simpl. apply removelast_last.
Qed.

(** With its braces removed, the JSON text of a non-empty dictionary is the
    member lines between two newlines. *)
Lemma remove_outer_braces_json d :
  d ≠ [] → remove_outer_braces (json_dumps d) = LF :: json_members d ++ [LF].
Proof.
  destruct d as [|kv d]; [done|]. intros _. unfold json_dumps.
  change (str "{" ++ LF :: json_members (kv :: d) ++ LF :: str "}")
    with ("{"%char :: (LF :: json_members (kv :: d) ++ LF :: str "}")).
  replace (LF :: json_members (kv :: d) ++ LF :: str "}")
    with ((LF :: json_members (kv :: d) ++ [LF]) ++ ["}"%char]).
  - apply remove_outer_braces_braced.
  - simpl. by rewrite <-(assoc_L (++)).
Qed.

Lemma front_matter_dict_nonempty title date updated categories :
  front_matter_dict title date updated categories ≠ [].
Proof. done. Qed.

(** The document: the opening delimiter line, the member lines, an empty
    line, the closing delimiter line, an empty line, the body. *)
Lemma note_document_format api now note res categories :
  note_document api now note res categories
  = str ";;;" ++ [LF]
    ++ json_members
         (front_matter_dict (default [] (n_title note)) (date_str now note).1
            (updated_str (date_str now note).1 note) categories)
    ++ [LF; LF] ++ str ";;;" ++ [LF; LF]
    ++ rewritten_body api (findall (default [] (n_body note))) res
         (default [] (n_body note)).
Proof.
  unfold note_document. cbn zeta.
  rewrite remove_outer_braces_json by apply front_matter_dict_nonempty.
  unfold front_matter_str. cbn [app str list_ascii_of_string].
  by rewrite <-!(assoc_L (++)).
Qed.

(** C5, as amended.  For every exported note the written document is
    [;;;], the JSON text of the front-matter with its outer braces removed,
    then [\n;;;\n\n] and the rewritten body.  The JSON text without its
    braces begins and ends with a newline, so the document reads: the
    [;;;] line, the member lines, one empty line, the closing [;;;] line,
    one empty line, the body. *)
Theorem document_wire_format api now note fs m categories :
  truthy (n_title note) = true → truthy (n_body note) = true →
  note_categories note m = Some categories →
  let front_matter :=
    front_matter_dict (default [] (n_title note)) (date_str now note).1
      (updated_str (date_str now note).1 note) categories in
  let new_body :=
    rewritten_body api (findall (default [] (n_body note))) (resources fs)
      (default [] (n_body note)) in
  ∃ fs' ev,
    process_note api now note fs m = Some (fs', ev)
    ∧ posts fs' !! markdown_filename note
      = Some (str ";;;" ++ remove_outer_braces (json_dumps front_matter)
              ++ [LF] ++ str ";;;" ++ [LF; LF] ++ new_body)
    ∧ remove_outer_braces (json_dumps front_matter)
      = [LF] ++ json_members front_matter ++ [LF]
    ∧ posts fs' !! markdown_filename note
      = Some (str ";;;" ++ [LF] ++ json_members front_matter ++ [LF; LF]
              ++ str ";;;" ++ [LF; LF] ++ new_body).
Proof.
  intros Ht Hb Hc. cbn zeta. rewrite process_note_exported by done.
  rewrite Hc. cbn [mbind option_bind]. eexists _, _. split; [done|].
  cbn [posts]. rewrite lookup_insert_eq.
  rewrite remove_outer_braces_json by apply front_matter_dict_nonempty.
  split_and!; [|done|]; f_equal; rewrite note_document_format;
    cbn [app]; by rewrite <-?(assoc_L (++)).
Qed.

Lemma document_wire_format_witness :
  ∃ fs' ev,
    process_note sample_api later_time sample_note empty_fs sample_notebooks
    = Some (fs', ev)
    ∧ posts fs' !! markdown_filename sample_note
      = Some (str ";;;" ++ remove_outer_braces (json_dumps sample_front_matter)
              ++ [LF] ++ str ";;;" ++ [LF; LF] ++ sample_new_body)
    ∧ remove_outer_braces (json_dumps sample_front_matter)
      = [LF] ++ json_members sample_front_matter ++ [LF]
    ∧ posts fs' !! markdown_filename sample_note
      = Some (str ";;;" ++ [LF] ++ json_members sample_front_matter ++ [LF; LF]
              ++ str ";;;" ++ [LF; LF] ++ sample_new_body).
Proof.
  apply (document_wire_format sample_api later_time sample_note empty_fs
           sample_notebooks [str "Root"; str "Child"]).
  - reflexivity.
  - reflexivity.
  - vm_compute. reflexivity.
Defined.

(** C5, as the claim words it, fails on [sample_note]: the document is not
    [;;;\n<block>\n;;;\n\n<body>] when the block is the JSON text with its
    braces removed (that puts an empty line after the first delimiter), nor
    for any block that does not itself end with a newline (the document has
    an empty line before the closing delimiter). *)
Lemma document_wire_format_counterexample :
  ∃ fs' ev doc,
    process_note sample_api later_time sample_note empty_fs sample_notebooks
    = Some (fs', ev)
    ∧ posts fs' !! markdown_filename sample_note = Some doc
    ∧ doc ≠ claimed_wire_format
              (remove_outer_braces (json_dumps sample_front_matter))
              sample_new_body
    ∧ ∀ block, last block ≠ Some LF →
        doc ≠ claimed_wire_format block sample_new_body.
Proof.
  eexists _, _, _. split; [|split].
  - rewrite process_note_exported by done.
    assert (note_categories sample_note sample_notebooks
            = Some [str "Root"; str "Child"]) as -> by (vm_compute; reflexivity).
    reflexivity.
  - cbn [posts]. apply lookup_insert_eq.
  - rewrite note_document_format.
    assert (rewritten_body sample_api (findall (default [] (n_body sample_note)))
              (resources empty_fs) (default [] (n_body sample_note))
            = sample_new_body) as -> by (vm_compute; reflexivity).
    assert (front_matter_dict (default [] (n_title sample_note))
              (date_str later_time sample_note).1
              (updated_str (date_str later_time sample_note).1 sample_note)
              [str "Root"; str "Child"] = sample_front_matter) as ->
      by (vm_compute; reflexivity).
    unfold claimed_wire_format. split.
    + vm_compute. discriminate.
    + intros block Hlast Heq. apply Hlast.
      do 2 apply app_inv_head in Heq.
      change ([LF; LF] ++ str ";;;" ++ [LF; LF] ++ sample_new_body)
        with ([LF] ++ ([LF] ++ str ";;;" ++ [LF; LF] ++ sample_new_body)) in Heq.
      rewrite !(assoc_L (++) _ _ ([LF] ++ _)) in Heq.
      apply app_inv_tail in Heq as <-. apply last_snoc.
Qed.

(** * The local file name of a resource *)

Lemma original_filename_cases meta :
  (∀ f, res_filename meta = Some f → f ≠ [] → original_filename meta = f)
  ∧ (truthy (res_filename meta) = false →
     ∀ t, res_title meta = Some t → t ≠ [] → original_filename meta = t)
  ∧ (truthy (res_filename meta) = false → truthy (res_title meta) = false →
     original_filename meta = []).
Proof.
  unfold original_filename. split_and!.
  - intros f -> Hf. by destruct f.
  - intros -> t -> Ht. by destruct t.
  - by intros -> ->.
Qed.

(** C4, as amended.  For every processed resource the local file name is
    the resource id followed by an extension.  The extension is taken from
    the metadata's filename when that is not empty, otherwise from the
    metadata's title when that is not empty; it is [.png] when the name so
    chosen has no extension or when both are empty.  A resource processed
    without a failure has its file under that name, and the links are
    rewritten to it. *)
Theorem local_filename_extension api res body id meta :
  api_get_resource api id = Some meta →
  ∃ extension,
    new_resource_filename id meta = id ++ extension
    ∧ (∀ f, res_filename meta = Some f → f ≠ [] →
         extension = or_png (splitext f).2)
    ∧ (truthy (res_filename meta) = false →
       ∀ t, res_title meta = Some t → t ≠ [] →
         extension = or_png (splitext t).2)
    ∧ (truthy (res_filename meta) = false → truthy (res_title meta) = false →
       extension = str ".png")
    ∧ (LogResourceError id ∉ (process_resource api res body id).2 →
       is_Some ((process_resource api res body id).1.1 !! (id ++ extension))
       ∧ (process_resource api res body id).1.2
         = str_replace (old_link id) (new_link (id ++ extension)) body).
Proof.
  intros Hmeta. exists (resource_extension meta).
  destruct (original_filename_cases meta) as (Hf & Ht & Hnone).
  split_and!; [done|..].
  - intros f Hfile Hne. unfold resource_extension. by rewrite (Hf f).
  - intros Hfile t Htitle Hne. unfold resource_extension. by rewrite (Ht Hfile t).
  - intros Hfile Htitle. unfold resource_extension. by rewrite Hnone.
  - destruct (process_resource_shape api res id)
      as [(res1 & ev1 & Herr & H)|(res1 & ev1 & meta' & Hmeta' & Hfile & _ & H)];
      rewrite H; cbn [fst snd]; [done|]. intros _.
    assert (meta' = meta) as -> by congruence. done.
Qed.

Lemma local_filename_extension_witness :
  ∃ extension,
    new_resource_filename sample_id sample_meta = sample_id ++ extension
    ∧ (∀ f, res_filename sample_meta = Some f → f ≠ [] →
         extension = or_png (splitext f).2)
    ∧ (truthy (res_filename sample_meta) = false →
       ∀ t, res_title sample_meta = Some t → t ≠ [] →
         extension = or_png (splitext t).2)
    ∧ (truthy (res_filename sample_meta) = false →
       truthy (res_title sample_meta) = false →
       extension = str ".png")
    ∧ (LogResourceError sample_id
         ∉ (process_resource sample_api ∅ sample_body sample_id).2 →
       is_Some ((process_resource sample_api ∅ sample_body sample_id).1.1
                  !! (sample_id ++ extension))
       ∧ (process_resource sample_api ∅ sample_body sample_id).1.2
         = str_replace (old_link sample_id) (new_link (sample_id ++ extension))
             sample_body).
Proof.
  apply (local_filename_extension sample_api ∅ sample_body sample_id sample_meta).
  reflexivity.
Defined.

(** C4, as the claim words it, fails for a resource whose filename field
    is empty and whose title is [photo.jpg]: the file is stored as
    [<id>.jpg], not as the [<id>.png] that the filename field alone would
    give. *)
Lemma local_filename_extension_counterexample :
  api_get_resource titled_api sample_id = Some titled_meta
  ∧ claimed_resource_filename sample_id titled_meta = sample_id ++ str ".png"
  ∧ new_resource_filename sample_id titled_meta = sample_id ++ str ".jpg"
  ∧ new_resource_filename sample_id titled_meta
    ≠ claimed_resource_filename sample_id titled_meta
  ∧ (process_resource titled_api ∅ sample_body sample_id).1.1
      !! (sample_id ++ str ".jpg") = Some (str "JPEG")
  ∧ (process_resource titled_api ∅ sample_body sample_id).1.1
      !! claimed_resource_filename sample_id titled_meta = None.
Proof.
  split_and!; try (vm_compute; reflexivity).
  vm_compute. discriminate.
Qed.

(** * What the document of a note depends on *)

Lemma date_str_clock now1 now2 note :
  has_creation_time note → date_str now1 note = date_str now2 note.
Proof.
  unfold date_str. intros [[t Ht]|[t Ht]]; rewrite Ht; [done|].
  by destruct (n_user_created_time note).
Qed.

Lemma process_note_clock api now1 now2 note fs m :
  has_creation_time note →
  process_note api now1 note fs m = process_note api now2 note fs m.
Proof.
  intros Hc. unfold process_note. by rewrite (date_str_clock now1 now2).
Qed.

Lemma same_dom_lookup_None (res1 res2 : gmap text text) name :
  dom res1 = dom res2 → res1 !! name = None → res2 !! name = None.
Proof. intros Hdom H. apply not_elem_of_dom. rewrite <-Hdom. by apply not_elem_of_dom. Qed.

(** One round of the loop sees of the directory only which names are
    there. *)
Lemma process_resource_same_dom api res1 res2 t id :
  dom res1 = dom res2 →
  (process_resource api res1 t id).1.2 = (process_resource api res2 t id).1.2
  ∧ (process_resource api res1 t id).2 = (process_resource api res2 t id).2
  ∧ dom (process_resource api res1 t id).1.1
    = dom (process_resource api res2 t id).1.1.
Proof.
  intros Hdom. unfold process_resource.
  destruct (api_get_resource api id) as [meta|]; [|done].
  destruct (res1 !! new_resource_filename id meta) as [c1|] eqn:H1;
    destruct (res2 !! new_resource_filename id meta) as [c2|] eqn:H2.
  - done.
  - apply (same_dom_lookup_None res2 res1) in H2; [congruence|done].
  - apply (same_dom_lookup_None res1 res2) in H1; [congruence|done].
  - destruct (api_get_resource_file api id) as [content|]; [|done].
    cbn [fst snd]. split_and!; [done..|]. by rewrite !dom_insert_L, Hdom.
Qed.

Lemma process_resources_same_dom api ids res1 res2 t :
  dom res1 = dom res2 →
  (process_resources api ids res1 t).1.2 = (process_resources api ids res2 t).1.2
  ∧ (process_resources api ids res1 t).2 = (process_resources api ids res2 t).2
  ∧ dom (process_resources api ids res1 t).1.1
    = dom (process_resources api ids res2 t).1.1.
Proof.
  revert res1 res2 t. induction ids as [|id ids IH]; intros res1 res2 t Hdom; [done|].
  rewrite !process_resources_cons. cbn zeta. cbn [fst snd].
  destruct (process_resource_same_dom api res1 res2 t id Hdom) as (Hb & He & Hd).
  rewrite Hb, He.
  destruct (IH _ _ (process_resource api res2 t id).1.2 Hd) as (Hb' & He' & Hd').
  by rewrite Hb', He', Hd'.
Qed.

(** C10, as amended.  For a note that has a creation timestamp, two calls
    of [process_note] with the same note, the same notebook map, the same
    API responses and resources directories that hold the same file names
    behave alike whatever the clocks show: both skip the note, or neither
    returns, or both write the same document under the same file name and
    log the same events. *)
Theorem process_note_deterministic api now1 now2 note fs1 fs2 m :
  has_creation_time note →
  dom (resources fs1) = dom (resources fs2) →
  ((truthy (n_title note) = false ∨ truthy (n_body note) = false)
   ∧ process_note api now1 note fs1 m = Some (fs1, [LogSkip (n_id note)])
   ∧ process_note api now2 note fs2 m = Some (fs2, [LogSkip (n_id note)]))
  ∨ (note_categories note m = None
     ∧ process_note api now1 note fs1 m = None
     ∧ process_note api now2 note fs2 m = None)
  ∨ (∃ fs1' fs2' ev doc,
       process_note api now1 note fs1 m = Some (fs1', ev)
       ∧ process_note api now2 note fs2 m = Some (fs2', ev)
       ∧ posts fs1' !! markdown_filename note = Some doc
       ∧ posts fs2' !! markdown_filename note = Some doc).
Proof.
  intros Hc Hdom.
  destruct (truthy (n_title note)) eqn:Ht; cycle 1.
  { left. split; [by left|]. unfold process_note. by rewrite Ht. }
  destruct (truthy (n_body note)) eqn:Hb; cycle 1.
  { left. split; [by right|]. unfold process_note. by rewrite Ht, Hb. }
  right. rewrite !process_note_exported by done.
  destruct (note_categories note m) as [categories|]; [right|by left].
  cbn [mbind option_bind].
  destruct (process_resources_same_dom api
              (findall (default [] (n_body note))) _ _
              (default [] (n_body note)) Hdom) as (Hbody & Hev & _).
  eexists _, _, _, _. split_and!; [done | | cbn [posts]; apply lookup_insert_eq |].
  - rewrite Hev, (date_str_clock now2 now1) by done. done.
  - cbn [posts]. rewrite lookup_insert_eq. f_equal.
    unfold note_document, rewritten_body.
    by rewrite Hbody, (date_str_clock now2 now1).
Qed.

Lemma process_note_deterministic_witness :
  ∃ fs1' fs2' ev doc,
    process_note sample_api sample_time sample_note empty_fs sample_notebooks
    = Some (fs1', ev)
    ∧ process_note sample_api later_time sample_note
        {| posts := {[ str "other.md" := str "text" ]}; resources := ∅ |}
        sample_notebooks
      = Some (fs2', ev)
    ∧ posts fs1' !! markdown_filename sample_note = Some doc
    ∧ posts fs2' !! markdown_filename sample_note = Some doc.
Proof.
  destruct (process_note_deterministic sample_api sample_time later_time
              sample_note empty_fs
              {| posts := {[ str "other.md" := str "text" ]}; resources := ∅ |}
              sample_notebooks) as [(H & _)|[(H & _)|H]].
  - left. by eexists.
  - reflexivity.
  - by destruct H.
  - vm_compute in H. discriminate.
  - exact H.
Defined.

(** C10, as the claim words it, fails when the content of a resource cannot
    be fetched: with the same note, the same notebook map, the same API
    responses and the same clock, the call that finds the file of the
    resource in the resources directory rewrites the link, and the call
    that does not find it leaves the link as it is. *)
Lemma process_note_deterministic_counterexample :
  has_creation_time sample_note
  ∧ ∃ fs1' ev1 fs2' ev2 doc1 doc2,
      process_note no_content_api later_time sample_note empty_fs sample_notebooks
      = Some (fs1', ev1)
      ∧ process_note no_content_api later_time sample_note cached_fs
          sample_notebooks
        = Some (fs2', ev2)
      ∧ posts fs1' !! markdown_filename sample_note = Some doc1
      ∧ posts fs2' !! markdown_filename sample_note = Some doc2
      ∧ doc1 ≠ doc2.
Proof.
  split; [left; by eexists|].
  eexists _, _, _, _, _, _.
  split_and!; [vm_compute; reflexivity..|]. vm_compute. discriminate.
Qed.

(** * The whole run *)

(** C2, as amended.  In a run that reaches the tag lookup (a token, an
    API that answers and lists its tags) with a tag name that is neither
    empty nor [ALL] and is the title of no tag, the run ends with
    [TagNotFound] after the ping and the tag listing: no notes are
    fetched and nothing is written.  The posts and resources directories
    are left exactly as they were, neither cleaned nor recreated. *)
Theorem missing_tag_aborts tag token api h d tags :
  token ≠ [] → api_ping api = true →
  tag ≠ [] → upper tag ≠ str "ALL" →
  api_get_all_tags api = Some tags →
  (∀ t, t ∈ tags → tag_title t ≠ tag) →
  main tag token api h d
  = Some (d, TagNotFound, [CallPing; CallGetAllTags; LogTagNotFound tag]).
Proof.
  intros Htoken Hping Htag Hall Htags Hnone. unfold main.
  destruct token as [|c token]; [done|]. rewrite Hping. cbn [negb].
  rewrite bool_decide_false by done. unfold fetch_notes.
  destruct tag as [|c' tag]; [done|]. cbn [truthy default]. rewrite Htags.
  destruct (List.find _ tags) as [t|] eqn:Hfind; [|done].
  apply List.find_some in Hfind as [Hin Heq%bool_decide_eq_true].
  by apply list_elem_of_In, Hnone in Hin.
Qed.

Lemma missing_tag_aborts_witness :
  main (str "draft") (str "token") sample_api sample_host used_disk
  = Some (used_disk, TagNotFound,
          [CallPing; CallGetAllTags; LogTagNotFound (str "draft")]).
Proof.
  apply (missing_tag_aborts (str "draft") (str "token") sample_api sample_host
           used_disk [{| tag_id := str "t1"; tag_title := str "blog" |}]).
  - discriminate.
  - reflexivity.
  - discriminate.
  - vm_compute. discriminate.
  - reflexivity.
  - intros t ->%list_elem_of_singleton. vm_compute. discriminate.
Defined.

(** C2, as the claim words it, fails: when the tag is not found the
    directories are not cleaned.  A posts directory that holds an earlier
    post still holds it after the run, and missing directories are not
    created. *)
Lemma missing_tag_aborts_counterexample :
  (∃ d' ev,
     main (str "draft") (str "token") sample_api sample_host used_disk
     = Some (d', TagNotFound, ev)
     ∧ d_posts d' ≠ Some ∅
     ∧ ∃ old_posts, d_posts d' = Some old_posts
         ∧ old_posts !! str "old.md" = Some (str "stale"))
  ∧ (∃ d' ev,
       main (str "draft") (str "token") sample_api sample_host no_disk
       = Some (d', TagNotFound, ev)
       ∧ d_posts d' = None ∧ d_resources d' = None).
Proof.
  split.
  - eexists _, _. split; [vm_compute; reflexivity|]. split.
    + vm_compute. discriminate.
    + eexists. split; vm_compute; reflexivity.
  - eexists _, _. split; [vm_compute; reflexivity|]. by split.
Qed.

Lemma clean_output_directories_true h d d' :
  clean_output_directories h d = (d', true) →
  d' = {| d_posts := Some ∅; d_resources := Some ∅ |}.
Proof.
  unfold clean_output_directories, rmtree_if_exists, makedirs.
  by repeat case_match; intros; simplify_eq.
Qed.

Lemma clean_output_directories_can h d :
  can_rmtree_posts h = true → can_rmtree_resources h = true →
  clean_output_directories h d
  = ({| d_posts := Some ∅; d_resources := Some ∅ |}, true).
Proof.
  intros Hp Hr. unfold clean_output_directories, rmtree_if_exists, makedirs.
  rewrite Hp, Hr. by destruct (d_posts d), (d_resources d).
Qed.

Lemma fetch_notes_listed api target notes ev :
  fetch_notes api target = (inr notes, ev) →
  ∃ sel, api_get_all_notes api sel = Some notes.
Proof.
  unfold fetch_notes. repeat case_match; intros; simplify_eq; eauto.
Qed.

Lemma process_notes_clock api h1 h2 i notes fs m :
  Forall has_creation_time notes →
  process_notes api h1 i notes fs m = process_notes api h2 i notes fs m.
Proof.
  intros Hnotes. revert i fs.
  induction Hnotes as [|note notes Hc _ IH]; intros i fs; [done|].
  cbn [process_notes]. rewrite (process_note_clock api (clock h1 i) (clock h2 i)) by done.
  destruct (process_note api (clock h2 i) note fs m) as [[fs1 ev1]|]; [|done].
  cbn [mbind option_bind]. by rewrite IH.
Qed.

(** Within a run a resource is downloaded exactly when its file is not
    there at the time it is processed. *)
Lemma download_iff_absent api res body id meta :
  api_get_resource api id = Some meta →
  (CallGetResourceFile id ∈ (process_resource api res body id).2
   ↔ res !! new_resource_filename id meta = None).
Proof.
  intros Hmeta. unfold process_resource. rewrite Hmeta.
  destruct (res !! new_resource_filename id meta) as [c|].
  - cbn [snd]. rewrite list_elem_of_singleton. split; [|done]. intros Heq. discriminate.
  - destruct (api_get_resource_file api id); cbn [snd]; split; try done;
      intros _; set_solver.
Qed.

(** C1, as amended.  When every note that the API lists has a creation
    timestamp and the first run completes, a second run with the same API
    responses that can delete the two directories completes as well, leaves
    the posts directory (and the resources directory) exactly as the first
    run left it, and does what the first run did, request by request: the
    directories are deleted at the start of every run, so every resource
    that the first run downloaded is downloaded again.  Only within a run
    is a download skipped for a file that is already there. *)
Theorem export_twice tag token api h1 h2 d0 d1 ev1 :
  (∀ sel notes, api_get_all_notes api sel = Some notes →
                Forall has_creation_time notes) →
  can_rmtree_posts h2 = true → can_rmtree_resources h2 = true →
  main tag token api h1 d0 = Some (d1, Finished, ev1) →
  main tag token api h2 d1 = Some (d1, Finished, ev1)
  ∧ (∀ res body id meta,
       api_get_resource api id = Some meta →
       (CallGetResourceFile id ∈ (process_resource api res body id).2
        ↔ res !! new_resource_filename id meta = None)).
Proof.
  intros Hct Hp Hr Hrun. split; [|apply download_iff_absent].
  unfold main in *.
  destruct token as [|c token]; [by simplify_eq|].
  destruct (api_ping api); cbn [negb] in *; [|by simplify_eq].
  destruct (fetch_notes api _) as [[stop|[|note notes]] ev] eqn:Hf;
    [by simplify_eq..|].
  destruct (api_get_all_notebooks api) as [all_notebooks|]; [|by simplify_eq].
  rewrite (clean_output_directories_can h2) by done.
  destruct (clean_output_directories h1 d0) as [d1c [|]] eqn:Hclean;
    [|by simplify_eq].
  apply clean_output_directories_true in Hclean as ->.
  apply fetch_notes_listed in Hf as [sel Hsel%Hct].
  rewrite (process_notes_clock api h2 h1) by done.
  destruct (process_notes api h1 _ _ _ _) as [[fs' evn]|]; by simplify_eq/=.
Qed.

Lemma export_twice_witness :
  ∃ d1 ev1,
    main (str "blog") (str "token") sample_api early_host used_disk
    = Some (d1, Finished, ev1)
    ∧ main (str "blog") (str "token") sample_api sample_host d1
      = Some (d1, Finished, ev1).
Proof.
  eexists _, _. split; [vm_compute; reflexivity|].
  apply (export_twice (str "blog") (str "token") sample_api early_host
           sample_host used_disk).
  - intros sel notes [= <-]. constructor; [|constructor]. left. by eexists.
  - reflexivity.
  - reflexivity.
  - vm_compute. reflexivity.
Defined.

(** C1, as the claim words it, fails twice over.  The second run does
    download again a resource whose file the first run left in the
    resources directory, because it deletes the directory first.  And for a
    note without any creation timestamp the date is read from the clock, so
    that two runs at different times write different posts. *)
Lemma export_twice_counterexample :
  (∃ d1 ev1 d2 ev2 res,
     main (str "blog") (str "token") sample_api sample_host no_disk
     = Some (d1, Finished, ev1)
     ∧ d_resources d1 = Some res
     ∧ is_Some (res !! str "0123456789abcdef0123456789abcdef.jpg")
     ∧ main (str "blog") (str "token") sample_api sample_host d1
       = Some (d2, Finished, ev2)
     ∧ CallGetResourceFile sample_id ∈ ev2)
  ∧ (∃ d1 ev1 d2 ev2,
       main (str "blog") (str "token") undated_api early_host no_disk
       = Some (d1, Finished, ev1)
       ∧ main (str "blog") (str "token") undated_api sample_host d1
         = Some (d2, Finished, ev2)
       ∧ d_posts d2 ≠ d_posts d1).
Proof.
  split.
  - eexists _, _, _, _, _. split_and!.
    + vm_compute. reflexivity.
    + vm_compute. reflexivity.
    + vm_compute. by eexists.
    + vm_compute. reflexivity.
    + decide_closed.
  - eexists _, _, _, _. split_and!.
    + vm_compute. reflexivity.
    + vm_compute. reflexivity.
    + vm_compute. discriminate.
Qed.
